(** * The WebRTC node binding (native-bindings/webrtc_binding.cc)

    The binding is a thin facade over N-API: three callbacks build or
    forward JavaScript values, and [Init] attaches them and two constants
    to the module's export object.  This development embeds the four
    functions of the file over a model of the N-API values they touch and
    proves the behaviour the specification states for them.  The two
    descriptor factories are embedded a second time, in [Host], over
    arguments whose property lookups run host code. *)

From Stdlib Require Import Floats.PrimFloat.
From stdpp Require Import gmap strings.

(** ** JavaScript values as N-API shows them *)

(** [napi_valuetype], in the order of the N-API header. *)
Inductive napi_valuetype : Set :=
  | napi_undefined
  | napi_null
  | napi_boolean
  | napi_number
  | napi_string
  | napi_symbol
  | napi_object
  | napi_function
  | napi_external
  | napi_bigint.

(** The callbacks this file registers with [Napi::Function::New]. *)
Inductive Callback : Set :=
  | CB_CreateRTCPeerConnection
  | CB_CreateRTCSessionDescription
  | CB_CreateRTCIceCandidate.

(** What a function value runs when called: one of the callbacks above, or
    code that lives elsewhere (script closures, other native modules). *)
Inductive Code : Set :=
  | Native (cb : Callback)
  | Foreign (id : N).

(** A value is a primitive or an object.  An object is the finite map of
    the data properties that a property lookup on it can see; functions are
    objects that carry code as well.  Numbers are IEEE doubles.  Every
    property here holds a value; objects with accessor properties and
    proxies, whose lookups run host code, are the exotic objects of
    [Host.HostValue] below. *)
Inductive Value : Type :=
  | VUndefined
  | VNull
  | VBoolean (b : bool)
  | VNumber (x : float)
  | VString (s : string)
  | VSymbol (id : N)
  | VObject (props : gmap string Value)
  | VFunction (code : Code) (props : gmap string Value)
  | VExternal (ptr : N)
  | VBigInt (z : Z).

(** [Napi::Value::Type]. *)
Definition Type_ (v : Value) : napi_valuetype :=
  match v with
  | VUndefined => napi_undefined
  | VNull => napi_null
  | VBoolean _ => napi_boolean
  | VNumber _ => napi_number
  | VString _ => napi_string
  | VSymbol _ => napi_symbol
  | VObject _ => napi_object
  | VFunction _ _ => napi_function
  | VExternal _ => napi_external
  | VBigInt _ => napi_bigint
  end.

Definition IsFunction (v : Value) : bool :=
  match Type_ v with napi_function => true | _ => false end.

(** [Napi::Value::IsObject]: [Type() == napi_object || IsFunction()]. *)
Definition IsObject (v : Value) : bool :=
  match Type_ v with napi_object => true | _ => IsFunction v end.

(** The properties of a value, when it is an object. *)
Definition properties (v : Value) : option (gmap string Value) :=
  match v with
  | VObject props | VFunction _ props => Some props
  | _ => None
  end.

(** The field [k] of [v]: present with a value, or absent.  A value that is
    not an object has no fields. *)
Definition field (v : Value) (k : string) : option Value :=
  props ← properties v; props !! k.

(** ** Errors and the binding monad *)

(** What a callback can throw: an N-API failure turned into an exception by
    the C++ wrapper, or a JavaScript exception raised by code it called. *)
Inductive Error : Type :=
  | ObjectExpected
  | JsException (v : Value).

Inductive Result (A : Type) : Type :=
  | Ok (a : A)
  | Err (e : Error).
Arguments Ok {A} a.
Arguments Err {A} e.

(** [Napi::Object::New]. *)
Definition Object_New : Value := VObject ∅.

(** [Napi::Function::New(env, cb)]; the properties the engine gives every
    function object are not tracked. *)
Definition Function_New (cb : Callback) : Value := VFunction (Native cb) ∅.

(** [Napi::Value::As<Napi::Object>]: an unchecked cast, the same handle. *)
Definition As_Object (v : Value) : Value := v.

(** Property operations of [Napi::Object] on the values above, where a
    lookup on an object runs no host code and so cannot throw; [Host.Has]
    and [Host.Get] are the operations on every object.  On a value that is
    not an object the model reports [ObjectExpected].  (N-API reports
    it for undefined and null and wraps the remaining primitives; failing
    on every non-object is the stricter reading, so a caller is shown not
    to fail only through its own [IsObject] guard.) *)
Definition Has (obj : Value) (k : string) : Result bool :=
  match properties obj with
  | Some props => Ok (bool_decide (is_Some (props !! k)))
  | None => Err ObjectExpected
  end.

Definition Get (obj : Value) (k : string) : Result Value :=
  match properties obj with
  | Some props => Ok (default VUndefined (props !! k))
  | None => Err ObjectExpected
  end.

(** [obj.Set(k, v)] mutates the object behind the handle; the model returns
    the object as it is after the call. *)
Definition Set_ (obj : Value) (k : string) (v : Value) : Result Value :=
  match obj with
  | VObject props => Ok (VObject (<[k := v]> props))
  | VFunction code props => Ok (VFunction code (<[k := v]> props))
  | _ => Err ObjectExpected
  end.

(** [Napi::CallbackInfo]: the arguments of a call. *)
Record CallbackInfo : Type := { argv : list Value }.

(** [info.Length()]. *)
Definition Length (info : CallbackInfo) : nat := length (argv info).

(** [info[i]]: the argument, or undefined past the end. *)
Definition Arg (info : CallbackInfo) (i : nat) : Value :=
  default VUndefined (argv info !! i).

Section Binding.

(** The state of the native engine behind [PeerConnection]; the binding
    never looks inside it. *)
Variable World : Type.

(** A computation of the binding: it runs in a state of the engine and
    returns a value or throws. *)
Definition M (A : Type) : Type := World → Result A * World.

#[global] Instance M_ret : MRet M := λ A a w, (Ok a, w).
#[global] Instance M_bind : MBind M := λ A B f m w,
  match m w with
  | (Ok a, w') => f a w'
  | (Err e, w') => (Err e, w')
  end.

(** An N-API call on values does not touch the engine. *)
Definition napi {A} (r : Result A) : M A := λ w, (r, w).

(** [PeerConnection] is declared in peer_connection.h, which is not part
    of the sources at hand: its two static members are parameters. *)
Variable PeerConnection_NewInstance : Value → M Value.
Variable PeerConnection_Init : Value → M Value.

(** webrtc_binding.cc, lines 5-8. *)
Definition CreateRTCPeerConnection (info : CallbackInfo) : M Value :=
  PeerConnection_NewInstance (Arg info 0).

(** webrtc_binding.cc, lines 10-26. *)
Definition CreateRTCSessionDescription (info : CallbackInfo) : M Value :=
  let obj := Object_New in
  obj ← (if (0 <? Length info) && IsObject (Arg info 0) then
           let init := As_Object (Arg info 0) in
           has_type ← napi (Has init "type");
           obj ← (if has_type : bool then
                    v ← napi (Get init "type"); napi (Set_ obj "type" v)
                  else mret obj);
           has_sdp ← napi (Has init "sdp");
           if has_sdp : bool then
             v ← napi (Get init "sdp"); napi (Set_ obj "sdp" v)
           else mret obj
         else mret obj);
  mret obj.

(** webrtc_binding.cc, lines 28-47. *)
Definition CreateRTCIceCandidate (info : CallbackInfo) : M Value :=
  let obj := Object_New in
  obj ← (if (0 <? Length info) && IsObject (Arg info 0) then
           let init := As_Object (Arg info 0) in
           has_candidate ← napi (Has init "candidate");
           obj ← (if has_candidate : bool then
                    v ← napi (Get init "candidate");
                    napi (Set_ obj "candidate" v)
                  else mret obj);
           has_index ← napi (Has init "sdpMLineIndex");
           obj ← (if has_index : bool then
                    v ← napi (Get init "sdpMLineIndex");
                    napi (Set_ obj "sdpMLineIndex" v)
                  else mret obj);
           has_mid ← napi (Has init "sdpMid");
           if has_mid : bool then
             v ← napi (Get init "sdpMid"); napi (Set_ obj "sdpMid" v)
           else mret obj
         else mret obj);
  mret obj.

(** webrtc_binding.cc, lines 49-63.  [PeerConnection::Init] works on the
    export object it is handed and its return value is dropped; the
    parameter returns the export object as the call leaves it. *)
Definition Init (exports : Value) : M Value :=
  exports ← PeerConnection_Init exports;
  exports ← napi (Set_ exports "RTCPeerConnection"
                    (Function_New CB_CreateRTCPeerConnection));
  exports ← napi (Set_ exports "RTCSessionDescription"
                    (Function_New CB_CreateRTCSessionDescription));
  exports ← napi (Set_ exports "RTCIceCandidate"
                    (Function_New CB_CreateRTCIceCandidate));
  exports ← napi (Set_ exports "version" (VString "1.0.0"));
  exports ← napi (Set_ exports "isNativeImplementation" (VBoolean true));
  mret exports.

(** Calling a function value made by [Function_New] runs its callback. *)
Definition invoke (cb : Callback) (info : CallbackInfo) : M Value :=
  match cb with
  | CB_CreateRTCPeerConnection => CreateRTCPeerConnection info
  | CB_CreateRTCSessionDescription => CreateRTCSessionDescription info
  | CB_CreateRTCIceCandidate => CreateRTCIceCandidate info
  end.

End Binding.

Arguments napi {World A} r.
Arguments CreateRTCPeerConnection {World} _ _.
Arguments CreateRTCSessionDescription {World} _.
Arguments CreateRTCIceCandidate {World} _.
Arguments Init {World} _ _.
Arguments invoke {World} _ _ _.

(** The fields each descriptor factory recognises. *)
Definition session_fields : list string := ["type"; "sdp"].
Definition ice_fields : list string := ["candidate"; "sdpMLineIndex"; "sdpMid"].

(** The input of the specification's ICE scenario. *)
Definition host_candidate_init : Value :=
  VObject (<["candidate" :=
               VString "candidate:1 1 UDP 2122260223 10.0.0.1 54321 typ host"]>
          (<["sdpMid" := VString "0"]> ∅)).

(** The part of a property map a factory copies: the entries whose key is
    one of [keys].  It is what the chain of [Has]/[Get]/[Set] steps of a
    factory is compared with below. *)
Definition recognised (keys : list string) (props : gmap string Value)
    : gmap string Value :=
  filter (λ kv, kv.1 ∈ keys) props.

(** The names [Init] sets on the export object, in the order of lines
    54-60. *)
Definition export_names : list string :=
  ["RTCPeerConnection"; "RTCSessionDescription"; "RTCIceCandidate";
   "version"; "isNativeImplementation"].

(** ** Objects whose property lookups run host code *)

Module Host.
Section Model.

(** The state that host code run by a lookup can read and change, the
    engine's included. *)
Variable World : Type.

(** A value as a callback can receive it.  Besides the ordinary values
    above there are exotic objects: objects with accessor properties, and
    proxies.  A lookup on one runs host code (a getter, a [has] or [get]
    trap), which may change the state, may return anything, and may throw.
    [Plain] is an object with data properties only, as [VObject] is, whose
    properties may hold exotic objects. *)
Inductive HostValue : Type :=
  | Ordinary (v : Value)
  | Plain (props : gmap string HostValue)
  | Exotic (callable : bool)
      (has_property : string → M World bool)
      (get_property : string → M World HostValue).

(** [Napi::Value::Type]. *)
Definition Type_ (v : HostValue) : napi_valuetype :=
  match v with
  | Ordinary v => Type_ v
  | Plain _ => napi_object
  | Exotic callable _ _ => if callable then napi_function else napi_object
  end.

Definition IsFunction (v : HostValue) : bool :=
  match Type_ v with napi_function => true | _ => false end.

(** [Napi::Value::IsObject]. *)
Definition IsObject (v : HostValue) : bool :=
  match Type_ v with napi_object => true | _ => IsFunction v end.

(** [Napi::Object::New]. *)
Definition Object_New : HostValue := Plain ∅.

(** [Napi::Value::As<Napi::Object>]. *)
Definition As_Object (v : HostValue) : HostValue := v.

(** [Napi::Object::Has]: a lookup on a data object, the [has] trap of an
    exotic one, whose error is the error of the call. *)
Definition Has (obj : HostValue) (k : string) : M World bool :=
  match obj with
  | Ordinary v => napi (Has v k)
  | Plain props => mret (bool_decide (is_Some (props !! k)))
  | Exotic _ has_property _ => has_property k
  end.

(** [Napi::Object::Get]: a lookup on a data object, the getter or [get]
    trap of an exotic one, whose error is the error of the call. *)
Definition Get (obj : HostValue) (k : string) : M World HostValue :=
  match obj with
  | Ordinary v =>
      napi (match Get v k with Ok x => Ok (Ordinary x) | Err e => Err e end)
  | Plain props => mret (default (Ordinary VUndefined) (props !! k))
  | Exotic _ _ get_property => get_property k
  end.

(** [Napi::Object::Set], for the receivers the factories have: objects
    fresh from [Object_New].  Other receivers are left out of the model
    and reported as a failure. *)
Definition Set_ (obj : HostValue) (k : string) (v : HostValue)
    : M World HostValue :=
  match obj with
  | Plain props => mret (Plain (<[k := v]> props))
  | _ => napi (Err ObjectExpected)
  end.

(** [Napi::CallbackInfo]. *)
Record CallbackInfo : Type := { argv : list HostValue }.

Definition Length (info : CallbackInfo) : nat := length (argv info).

Definition Arg (info : CallbackInfo) (i : nat) : HostValue :=
  default (Ordinary VUndefined) (argv info !! i).

(** webrtc_binding.cc, lines 10-26. *)
Definition CreateRTCSessionDescription (info : CallbackInfo)
    : M World HostValue :=
  let obj := Object_New in
  obj ← (if (0 <? Length info) && IsObject (Arg info 0) then
           let init := As_Object (Arg info 0) in
           has_type ← Has init "type";
           obj ← (if has_type : bool then
                    v ← Get init "type"; Set_ obj "type" v
                  else mret obj);
           has_sdp ← Has init "sdp";
           if has_sdp : bool then
             v ← Get init "sdp"; Set_ obj "sdp" v
           else mret obj
         else mret obj);
  mret obj.

(** webrtc_binding.cc, lines 28-47. *)
Definition CreateRTCIceCandidate (info : CallbackInfo)
    : M World HostValue :=
  let obj := Object_New in
  obj ← (if (0 <? Length info) && IsObject (Arg info 0) then
           let init := As_Object (Arg info 0) in
           has_candidate ← Has init "candidate";
           obj ← (if has_candidate : bool then
                    v ← Get init "candidate"; Set_ obj "candidate" v
                  else mret obj);
           has_index ← Has init "sdpMLineIndex";
           obj ← (if has_index : bool then
                    v ← Get init "sdpMLineIndex"; Set_ obj "sdpMLineIndex" v
                  else mret obj);
           has_mid ← Has init "sdpMid";
           if has_mid : bool then
             v ← Get init "sdpMid"; Set_ obj "sdpMid" v
           else mret obj
         else mret obj);
  mret obj.

(** The lookups of the fields [keys] on [v] return, in every state. *)
Definition lookups_return (keys : list string) (v : HostValue) : Prop :=
  match v with
  | Exotic _ has_property get_property =>
      ∀ k w, k ∈ keys →
        (∃ b w', has_property k w = (Ok b, w')) ∧
        (∃ x w', get_property k w = (Ok x, w'))
  | _ => True
  end.

(** The error [e], leaving the state [w'], was thrown by a lookup of one of
    the fields [keys] on [v]. *)
Definition thrown_by_lookup (keys : list string) (v : HostValue)
    (e : Error) (w' : World) : Prop :=
  match v with
  | Exotic _ has_property get_property =>
      ∃ k w, k ∈ keys ∧
        (has_property k w = (Err e, w') ∨ get_property k w = (Err e, w'))
  | _ => False
  end.

End Model.

Arguments Ordinary {World} v.
Arguments Plain {World} props.
Arguments Exotic {World} callable has_property get_property.
Arguments Object_New {World}.
Arguments Build_CallbackInfo {World} argv.
Arguments argv {World} c.
Arguments Arg {World} info i.
Arguments Has {World} obj k.
Arguments Get {World} obj k.
Arguments Set_ {World} obj k v.
Arguments IsObject {World} v.
Arguments Type_ {World} v.
Arguments CreateRTCSessionDescription {World} info.
Arguments CreateRTCIceCandidate {World} info.
Arguments lookups_return {World} keys v.
Arguments thrown_by_lookup {World} keys v e w'.

End Host.

(** ** Running the property operations on objects *)

Lemma not_IsObject_field (v : Value) (k : string) :
  IsObject v = false → field v k = None.
Proof. by destruct v. Qed.

Lemma field_IsObject (v : Value) (k : string) :
  is_Some (field v k) → IsObject v = true.
Proof. destruct v; simpl; intros [? ?]; done. Qed.

Lemma Has_object (v : Value) (k : string) :
  IsObject v = true → Has v k = Ok (bool_decide (is_Some (field v k))).
Proof. by destruct v. Qed.

Lemma Get_object (v : Value) (k : string) :
  IsObject v = true → Get v k = Ok (default VUndefined (field v k)).
Proof. by destruct v. Qed.

Lemma Arg_0_cons (v : Value) (rest : list Value) :
  Arg {| argv := v :: rest |} 0 = v.
Proof. reflexivity. Qed.

(** Membership of a key in a list of literals, decided case by case. *)
Ltac key_cases k l :=
  destruct (decide (k ∈ l)) as [Hin | Hnin];
  [ unfold l in Hin; repeat (apply elem_of_cons in Hin as [-> | Hin]);
    [ .. | by apply elem_of_nil in Hin ]
  | unfold l in Hnin;
    repeat (apply not_elem_of_cons in Hnin as [? Hnin]) ].

Section Descriptors.
Context {World : Type}.

(** One bind of the monad, run from a state. *)
Lemma bind_run {A B} (m : M World A) (f : A → M World B) (w : World) :
  (m ≫= f) w
  = match m w with (Ok a, w') => f a w' | (Err e, w') => (Err e, w') end.
Proof. reflexivity. Qed.

(** What the session-description factory returns, for every call: a fresh
    object holding exactly the recognised fields the first argument has. *)
Lemma CreateRTCSessionDescription_run (info : CallbackInfo) (w : World) :
  ∃ props,
    CreateRTCSessionDescription info w = (Ok (VObject props), w) ∧
    ∀ k, props !! k
         = if decide (k ∈ session_fields) then field (Arg info 0) k else None.
Proof.
  unfold CreateRTCSessionDescription, As_Object, Object_New.
  destruct ((0 <? Length info) && IsObject (Arg info 0)) eqn:Hguard.
  - apply andb_true_iff in Hguard as [_ Hobj].
    rewrite !(Has_object _ _ Hobj), !(Get_object _ _ Hobj).
    destruct (field (Arg info 0) "type") as [t|] eqn:Htype;
      destruct (field (Arg info 0) "sdp") as [s|] eqn:Hsdp;
      (eexists; split; [reflexivity|]); intros k;
      key_cases k session_fields; simplify_map_eq; done.
  - exists ∅. split; [reflexivity|]. intros k. rewrite lookup_empty.
    case_decide; [|done]. symmetry.
    apply andb_false_iff in Hguard as [Hlen | Hobj].
    + apply Nat.ltb_ge in Hlen. unfold Arg, Length in *.
      destruct (argv info); [done | simpl in Hlen; lia].
    + by apply not_IsObject_field.
Qed.

(** The same for the ICE-candidate factory and its three fields. *)
Lemma CreateRTCIceCandidate_run (info : CallbackInfo) (w : World) :
  ∃ props,
    CreateRTCIceCandidate info w = (Ok (VObject props), w) ∧
    ∀ k, props !! k
         = if decide (k ∈ ice_fields) then field (Arg info 0) k else None.
Proof.
  unfold CreateRTCIceCandidate, As_Object, Object_New.
  destruct ((0 <? Length info) && IsObject (Arg info 0)) eqn:Hguard.
  - apply andb_true_iff in Hguard as [_ Hobj].
    rewrite !(Has_object _ _ Hobj), !(Get_object _ _ Hobj).
    destruct (field (Arg info 0) "candidate") as [c|] eqn:Hcandidate;
      destruct (field (Arg info 0) "sdpMLineIndex") as [i|] eqn:Hindex;
      destruct (field (Arg info 0) "sdpMid") as [m|] eqn:Hmid;
      (eexists; split; [reflexivity|]); intros k;
      key_cases k ice_fields; simplify_map_eq; done.
  - exists ∅. split; [reflexivity|]. intros k. rewrite lookup_empty.
    case_decide; [|done]. symmetry.
    apply andb_false_iff in Hguard as [Hlen | Hobj].
    + apply Nat.ltb_ge in Hlen. unfold Arg, Length in *.
      destruct (argv info); [done | simpl in Hlen; lia].
    + by apply not_IsObject_field.
Qed.

(** A record is determined by its fields. *)
Lemma record_eq (p q : gmap string Value) :
  (∀ k, p !! k = q !! k) → VObject p = VObject q.
Proof. intros H. f_equal. by apply map_eq. Qed.

(** Module initialisation succeeds whenever [PeerConnection::Init] does and
    leaves the export object an object; the five exports are then set. *)
Lemma Init_run (PeerConnection_Init : Value → M World Value)
    (exports exports1 : Value) (w w1 : World) :
  PeerConnection_Init exports w = (Ok exports1, w1) →
  IsObject exports1 = true →
  ∃ exports',
    Init PeerConnection_Init exports w = (Ok exports', w1) ∧
    field exports' "RTCPeerConnection"
      = Some (Function_New CB_CreateRTCPeerConnection) ∧
    field exports' "RTCSessionDescription"
      = Some (Function_New CB_CreateRTCSessionDescription) ∧
    field exports' "RTCIceCandidate"
      = Some (Function_New CB_CreateRTCIceCandidate) ∧
    field exports' "version" = Some (VString "1.0.0") ∧
    field exports' "isNativeImplementation" = Some (VBoolean true).
Proof.
  intros Hinit Hobj. unfold Init. rewrite bind_run, Hinit.
  destruct exports1; try discriminate;
    (eexists; split; [reflexivity|]); unfold field; simpl;
    repeat split; by simplify_map_eq.
Qed.

(** A failure of [PeerConnection::Init] is the failure of [Init]. *)
Lemma Init_fails (PeerConnection_Init : Value → M World Value)
    (exports : Value) (e : Error) (w w1 : World) :
  PeerConnection_Init exports w = (Err e, w1) →
  Init PeerConnection_Init exports w = (Err e, w1).
Proof. intros Hinit. unfold Init. by rewrite bind_run, Hinit. Qed.

End Descriptors.

(** ** The factories on concrete calls *)

Example session_offer_with_extra_field :
  CreateRTCSessionDescription
    {| argv := [VObject (<["type" := VString "offer"]>
                        (<["sdp" := VString "v=0"]>
                        (<["extra" := VNumber 1%float]> ∅)))] |} tt
  = (Ok (VObject (<["type" := VString "offer"]>
                 (<["sdp" := VString "v=0"]> ∅))), tt).
Proof. by vm_compute. Qed.

Example session_from_primitives :
  CreateRTCSessionDescription {| argv := [VNull] |} tt = (Ok (VObject ∅), tt) ∧
  CreateRTCSessionDescription {| argv := [VString "offer"] |} tt
  = (Ok (VObject ∅), tt) ∧
  CreateRTCSessionDescription {| argv := [VNumber 1%float; VObject ∅] |} tt
  = (Ok (VObject ∅), tt).
Proof. by vm_compute. Qed.

(** A function is an object for [IsObject]: its fields are copied too. *)
Example session_from_function :
  CreateRTCSessionDescription
    {| argv := [VFunction (Foreign 0) (<["type" := VString "answer"]> ∅)] |} tt
  = (Ok (VObject (<["type" := VString "answer"]> ∅)), tt).
Proof. by vm_compute. Qed.

(** A field that is present and holds undefined is copied as such. *)
Example session_type_undefined :
  CreateRTCSessionDescription
    {| argv := [VObject (<["type" := VUndefined]> ∅)] |} tt
  = (Ok (VObject (<["type" := VUndefined]> ∅)), tt).
Proof. by vm_compute. Qed.

Example ice_host_candidate :
  CreateRTCIceCandidate {| argv := [host_candidate_init] |} tt
  = (Ok host_candidate_init, tt).
Proof. by vm_compute. Qed.

(** The property operations fail off objects; the factories' guard keeps
    them from being called there. *)
Example Has_undefined : Has VUndefined "type" = Err ObjectExpected.
Proof. reflexivity. Qed.

(** The function exported as [RTCSessionDescription] runs
    [CreateRTCSessionDescription]. *)
Example exported_session_factory :
  ∃ exports',
    Init (λ exports, mret exports) Object_New tt = (Ok exports', tt) ∧
    field exports' "RTCSessionDescription"
    = Some (Function_New CB_CreateRTCSessionDescription) ∧
    ∀ (NewInstance : Value → M unit Value) info,
      invoke NewInstance CB_CreateRTCSessionDescription info
      = CreateRTCSessionDescription info.
Proof. eexists. split; [reflexivity|]. split; [by vm_compute | done]. Qed.

(** ** The session-description factory *)

(** C1: for every input object [init] that has a [type] field and no [sdp]
    field, [createSessionDescription(init)] returns a record whose [type]
    field is the input's [type] value and which has no [sdp] field. *)
Theorem session_description_type_without_sdp {World : Type}
    (init : Value) (rest : list Value) (w : World) (t : Value) :
  field init "type" = Some t →
  field init "sdp" = None →
  ∃ r, CreateRTCSessionDescription {| argv := init :: rest |} w = (Ok r, w) ∧
       Type_ r = napi_object ∧
       field r "type" = Some t ∧
       field r "sdp" = None.
Proof.
  intros Htype Hsdp.
  destruct (CreateRTCSessionDescription_run {| argv := init :: rest |} w)
    as (props & Hrun & Hprops).
  exists (VObject props). rewrite Arg_0_cons in Hprops.
  split; [done|]. split; [done|]. unfold field. simpl.
  rewrite !Hprops, Htype, Hsdp. by rewrite !decide_True by set_solver.
Qed.

Lemma session_description_type_without_sdp_witness :
  let init := VObject (<["type" := VString "offer"]> ∅) in
  field init "type" = Some (VString "offer") ∧
  field init "sdp" = None ∧
  ∃ r, CreateRTCSessionDescription {| argv := [init] |} tt = (Ok r, tt) ∧
       Type_ r = napi_object ∧
       field r "type" = Some (VString "offer") ∧
       field r "sdp" = None.
Proof.
  intros init. split; [reflexivity|]. split; [reflexivity|].
  apply (session_description_type_without_sdp (World := unit) init []);
    reflexivity.
Defined.

(** C2: [createSessionDescription] returns an empty record when its
    argument is omitted, when it is not an object, and when it is an object
    with neither [type] nor [sdp]; a call with no argument and a call with
    an empty object return the same, empty, record. *)
Theorem session_description_empty {World : Type} (w : World) :
  CreateRTCSessionDescription {| argv := [] |} w = (Ok (VObject ∅), w) ∧
  (∀ info, IsObject (Arg info 0) = false →
     CreateRTCSessionDescription info w = (Ok (VObject ∅), w)) ∧
  (∀ info, IsObject (Arg info 0) = true →
     field (Arg info 0) "type" = None →
     field (Arg info 0) "sdp" = None →
     CreateRTCSessionDescription info w = (Ok (VObject ∅), w)) ∧
  CreateRTCSessionDescription {| argv := [] |} w
  = CreateRTCSessionDescription {| argv := [Object_New] |} w.
Proof.
  split; [reflexivity|]. split; [|split; [|reflexivity]].
  - intros info Hobj.
    destruct (CreateRTCSessionDescription_run info w) as (props & -> & Hprops).
    do 2 f_equal. apply record_eq. intros k.
    rewrite Hprops, lookup_empty, not_IsObject_field by done.
    by case_decide.
  - intros info _ Htype Hsdp.
    destruct (CreateRTCSessionDescription_run info w) as (props & -> & Hprops).
    do 2 f_equal. apply record_eq. intros k. rewrite Hprops, lookup_empty.
    key_cases k session_fields; done.
Qed.

Lemma session_description_empty_witness :
  let not_an_object := {| argv := [VString "offer"] |} in
  let no_fields := {| argv := [VObject (<["label" := VNumber 7%float]> ∅)] |} in
  IsObject (Arg not_an_object 0) = false ∧
  CreateRTCSessionDescription not_an_object tt = (Ok (VObject ∅), tt) ∧
  IsObject (Arg no_fields 0) = true ∧
  field (Arg no_fields 0) "type" = None ∧
  field (Arg no_fields 0) "sdp" = None ∧
  CreateRTCSessionDescription no_fields tt = (Ok (VObject ∅), tt).
Proof.
  intros not_an_object no_fields.
  destruct (session_description_empty tt) as (_ & Hprim & Hobj & _).
  split; [reflexivity|]. split; [apply Hprim; reflexivity|].
  split; [reflexivity|]. split; [reflexivity|]. split; [reflexivity|].
  apply Hobj; reflexivity.
Defined.

(** ** The ICE-candidate factory *)

(** C3: for every input object [init] with [candidate], [sdpMLineIndex] and
    [sdpMid] all present, [createIceCandidate(init)] returns a record with
    the three fields copied exactly; each value keeps its dynamic type. *)
Theorem ice_candidate_all_fields_copied {World : Type}
    (init : Value) (rest : list Value) (w : World) (c i m : Value) :
  field init "candidate" = Some c →
  field init "sdpMLineIndex" = Some i →
  field init "sdpMid" = Some m →
  ∃ r, CreateRTCIceCandidate {| argv := init :: rest |} w = (Ok r, w) ∧
       field r "candidate" = Some c ∧
       field r "sdpMLineIndex" = Some i ∧
       field r "sdpMid" = Some m ∧
       ∀ k, k ∈ ice_fields →
            Type_ <$> field r k = Type_ <$> field init k.
Proof.
  intros Hcandidate Hindex Hmid.
  destruct (CreateRTCIceCandidate_run {| argv := init :: rest |} w)
    as (props & Hrun & Hprops).
  exists (VObject props). rewrite Arg_0_cons in Hprops.
  split; [done|]. unfold field at 1 2 3 4. simpl.
  rewrite !Hprops, !decide_True by set_solver.
  repeat split; try done.
  intros k Hk. by rewrite Hprops, decide_True.
Qed.

Lemma ice_candidate_all_fields_copied_witness :
  let init := VObject (<["candidate" := VString "candidate:0 1 UDP 1 ::1 9 typ host"]>
                      (<["sdpMLineIndex" := VNumber 0%float]>
                      (<["sdpMid" := VString "audio"]> ∅))) in
  ∃ r, CreateRTCIceCandidate {| argv := [init] |} tt = (Ok r, tt) ∧
       field r "candidate" = Some (VString "candidate:0 1 UDP 1 ::1 9 typ host") ∧
       field r "sdpMLineIndex" = Some (VNumber 0%float) ∧
       field r "sdpMid" = Some (VString "audio") ∧
       ∀ k, k ∈ ice_fields →
            Type_ <$> field r k = Type_ <$> field init k.
Proof.
  intros init.
  apply (ice_candidate_all_fields_copied (World := unit) init []);
    reflexivity.
Defined.

(** ** Both descriptor factories *)

(** C4: for every input to either descriptor factory, a field other than
    the recognised ones never appears on the returned record; the call
    still returns normally. *)
Theorem descriptors_drop_unrecognized {World : Type}
    (info : CallbackInfo) (w : World) (k : string) :
  (k ∉ session_fields →
     ∃ r, CreateRTCSessionDescription info w = (Ok r, w) ∧
          field r k = None) ∧
  (k ∉ ice_fields →
     ∃ r, CreateRTCIceCandidate info w = (Ok r, w) ∧ field r k = None).
Proof.
  split; intros Hk.
  - destruct (CreateRTCSessionDescription_run info w) as (props & Hrun & Hprops).
    exists (VObject props). split; [done|]. unfold field. simpl.
    by rewrite Hprops, decide_False.
  - destruct (CreateRTCIceCandidate_run info w) as (props & Hrun & Hprops).
    exists (VObject props). split; [done|]. unfold field. simpl.
    by rewrite Hprops, decide_False.
Qed.

Lemma descriptors_drop_unrecognized_witness :
  let session := {| argv := [VObject (<["type" := VString "answer"]>
                                     (<["sdpMid" := VString "0"]> ∅))] |} in
  let ice := {| argv := [VObject (<["candidate" := VString "c"]>
                                 (<["type" := VString "answer"]> ∅))] |} in
  (field (Arg session 0) "sdpMid" = Some (VString "0") ∧
   ∃ r, CreateRTCSessionDescription session tt = (Ok r, tt) ∧
        field r "sdpMid" = None) ∧
  (field (Arg ice 0) "type" = Some (VString "answer") ∧
   ∃ r, CreateRTCIceCandidate ice tt = (Ok r, tt) ∧ field r "type" = None).
Proof.
  intros session ice. split; (split; [reflexivity|]).
  - apply (descriptors_drop_unrecognized session tt "sdpMid").
    compute_done.
  - apply (descriptors_drop_unrecognized ice tt "type").
    compute_done.
Defined.

(** C5: both descriptor factories preserve field presence exactly: a field
    absent on the input is absent on the returned record, and a recognised
    field is on the record exactly as it is on the input.  For the input
    with a [candidate] string and [sdpMid] ["0"], [createIceCandidate]
    returns a record with those two fields and no [sdpMLineIndex]. *)
Theorem descriptors_preserve_presence {World : Type} (w : World) :
  (∀ info k, field (Arg info 0) k = None →
     ∃ r, CreateRTCSessionDescription info w = (Ok r, w) ∧
          field r k = None) ∧
  (∀ info k, field (Arg info 0) k = None →
     ∃ r, CreateRTCIceCandidate info w = (Ok r, w) ∧ field r k = None) ∧
  (∀ info k, k ∈ session_fields →
     ∃ r, CreateRTCSessionDescription info w = (Ok r, w) ∧
          field r k = field (Arg info 0) k) ∧
  (∀ info k, k ∈ ice_fields →
     ∃ r, CreateRTCIceCandidate info w = (Ok r, w) ∧
          field r k = field (Arg info 0) k) ∧
  (∃ r, CreateRTCIceCandidate {| argv := [host_candidate_init] |} w
        = (Ok r, w) ∧
        field r "candidate"
        = Some (VString "candidate:1 1 UDP 2122260223 10.0.0.1 54321 typ host") ∧
        field r "sdpMid" = Some (VString "0") ∧
        field r "sdpMLineIndex" = None).
Proof.
  repeat split.
  - intros info k Habsent.
    destruct (CreateRTCSessionDescription_run info w) as (props & Hrun & Hprops).
    exists (VObject props). split; [done|]. unfold field at 1. simpl.
    rewrite Hprops. by case_decide.
  - intros info k Habsent.
    destruct (CreateRTCIceCandidate_run info w) as (props & Hrun & Hprops).
    exists (VObject props). split; [done|]. unfold field at 1. simpl.
    rewrite Hprops. by case_decide.
  - intros info k Hk.
    destruct (CreateRTCSessionDescription_run info w) as (props & Hrun & Hprops).
    exists (VObject props). split; [done|]. unfold field at 1. simpl.
    by rewrite Hprops, decide_True.
  - intros info k Hk.
    destruct (CreateRTCIceCandidate_run info w) as (props & Hrun & Hprops).
    exists (VObject props). split; [done|]. unfold field at 1. simpl.
    by rewrite Hprops, decide_True.
  - eexists. split; [reflexivity|]. by vm_compute.
Qed.

Lemma descriptors_preserve_presence_witness :
  let info := {| argv := [VObject (<["sdp" := VString "v=0"]> ∅)] |} in
  (field (Arg info 0) "type" = None ∧
   ∃ r, CreateRTCSessionDescription info tt = (Ok r, tt) ∧
        field r "type" = None) ∧
  (field (Arg info 0) "sdpMLineIndex" = None ∧
   ∃ r, CreateRTCIceCandidate info tt = (Ok r, tt) ∧
        field r "sdpMLineIndex" = None) ∧
  ("sdp" ∈ session_fields ∧
   ∃ r, CreateRTCSessionDescription info tt = (Ok r, tt) ∧
        field r "sdp" = field (Arg info 0) "sdp") ∧
  ("sdpMid" ∈ ice_fields ∧
   ∃ r, CreateRTCIceCandidate info tt = (Ok r, tt) ∧
        field r "sdpMid" = field (Arg info 0) "sdpMid").
Proof.
  intros info.
  destruct (descriptors_preserve_presence tt) as (Hs & Hi & Hsk & Hik & _).
  split; [split; [reflexivity | apply Hs; reflexivity]|].
  split; [split; [reflexivity | apply Hi; reflexivity]|].
  assert (Hsdp : "sdp" ∈ session_fields) by compute_done.
  assert (Hmid : "sdpMid" ∈ ice_fields) by compute_done.
  split; [split; [exact Hsdp | apply Hsk; exact Hsdp]|].
  split; [exact Hmid | apply Hik; exact Hmid].
Defined.

(** C9: both descriptor factories ignore every argument after the first. *)
Theorem descriptors_ignore_extra_arguments {World : Type}
    (first : Value) (extra : list Value) (w : World) :
  CreateRTCSessionDescription {| argv := first :: extra |} w
  = CreateRTCSessionDescription {| argv := [first] |} w ∧
  CreateRTCIceCandidate {| argv := first :: extra |} w
  = CreateRTCIceCandidate {| argv := [first] |} w.
Proof. split; reflexivity. Qed.

(** C10: both descriptor factories are functions of the recognised fields
    of their input alone: two calls whose inputs agree on the presence and
    the values of the recognised fields return equal records, whatever else
    the inputs hold and in whatever states the calls are made; neither call
    changes the state. *)
Theorem descriptors_depend_on_recognized_fields {World : Type}
    (info1 info2 : CallbackInfo) (w1 w2 : World) :
  ((∀ k, k ∈ session_fields →
         field (Arg info1 0) k = field (Arg info2 0) k) →
   ∃ r, CreateRTCSessionDescription info1 w1 = (Ok r, w1) ∧
        CreateRTCSessionDescription info2 w2 = (Ok r, w2)) ∧
  ((∀ k, k ∈ ice_fields →
         field (Arg info1 0) k = field (Arg info2 0) k) →
   ∃ r, CreateRTCIceCandidate info1 w1 = (Ok r, w1) ∧
        CreateRTCIceCandidate info2 w2 = (Ok r, w2)).
Proof.
  split; intros Hagree.
  - destruct (CreateRTCSessionDescription_run info1 w1) as (p1 & Hrun1 & Hp1).
    destruct (CreateRTCSessionDescription_run info2 w2) as (p2 & Hrun2 & Hp2).
    exists (VObject p1). split; [done|]. rewrite Hrun2. do 2 f_equal.
    apply record_eq. intros k. rewrite Hp1, Hp2.
    case_decide; [symmetry; by apply Hagree | done].
  - destruct (CreateRTCIceCandidate_run info1 w1) as (p1 & Hrun1 & Hp1).
    destruct (CreateRTCIceCandidate_run info2 w2) as (p2 & Hrun2 & Hp2).
    exists (VObject p1). split; [done|]. rewrite Hrun2. do 2 f_equal.
    apply record_eq. intros k. rewrite Hp1, Hp2.
    case_decide; [symmetry; by apply Hagree | done].
Qed.

Lemma descriptors_depend_on_recognized_fields_witness :
  let plain := {| argv := [VObject (<["type" := VString "offer"]> ∅)] |} in
  let noisy := {| argv := [VObject (<["type" := VString "offer"]>
                                   (<["candidate" := VNull]>
                                   (<["toString" := VBoolean false]> ∅)));
                           VNumber 3%float] |} in
  let bare := {| argv := [VObject (<["candidate" := VNull]> ∅)] |} in
  (∃ r, CreateRTCSessionDescription plain 0%nat = (Ok r, 0%nat) ∧
        CreateRTCSessionDescription noisy 5%nat = (Ok r, 5%nat)) ∧
  (∃ r, CreateRTCIceCandidate bare 0%nat = (Ok r, 0%nat) ∧
        CreateRTCIceCandidate noisy 5%nat = (Ok r, 5%nat)).
Proof.
  intros plain noisy bare. split.
  - apply (descriptors_depend_on_recognized_fields plain noisy 0%nat 5%nat).
    intros k Hk. unfold session_fields in Hk.
    repeat (apply elem_of_cons in Hk as [-> | Hk]); try reflexivity.
    by apply elem_of_nil in Hk.
  - apply (descriptors_depend_on_recognized_fields bare noisy 0%nat 5%nat).
    intros k Hk. unfold ice_fields in Hk.
    repeat (apply elem_of_cons in Hk as [-> | Hk]); try reflexivity.
    by apply elem_of_nil in Hk.
Defined.

(** ** Peer-connection creation and module initialisation *)

(** C8: [createPeerConnection(configInput)] hands [configInput], as it is,
    to the native connection factory and its outcome is the factory's
    outcome: the same returned value, or the same thrown error, and the
    same state of the engine. *)
Theorem CreateRTCPeerConnection_delegates {World : Type}
    (NewInstance : Value → M World Value)
    (configInput : Value) (rest : list Value) (w : World) :
  CreateRTCPeerConnection NewInstance {| argv := configInput :: rest |} w
  = NewInstance configInput w ∧
  (∀ r w', NewInstance configInput w = (Ok r, w') →
     CreateRTCPeerConnection NewInstance {| argv := configInput :: rest |} w
     = (Ok r, w')) ∧
  (∀ e w', NewInstance configInput w = (Err e, w') →
     CreateRTCPeerConnection NewInstance {| argv := configInput :: rest |} w
     = (Err e, w')).
Proof. repeat split; intros; done. Qed.

Lemma CreateRTCPeerConnection_delegates_witness :
  let accept : Value → M nat Value := λ config n, (Ok (VExternal 1), S n) in
  let reject : Value → M nat Value := λ config n, (Err (JsException config), n) in
  let config := VObject (<["iceServers" := VNull]> ∅) in
  CreateRTCPeerConnection accept {| argv := [config] |} 0%nat
  = (Ok (VExternal 1), 1%nat) ∧
  CreateRTCPeerConnection reject {| argv := [config] |} 0%nat
  = (Err (JsException config), 0%nat).
Proof.
  intros accept reject config. split.
  - apply (CreateRTCPeerConnection_delegates accept config [] 0%nat).
    reflexivity.
  - apply (CreateRTCPeerConnection_delegates reject config [] 0%nat).
    reflexivity.
Defined.

(** C6: after module initialisation the export [version] is the string
    ["1.0.0"] and the export [isNativeImplementation] is the boolean true,
    for every module load: whatever export object the loader passes and
    whatever [PeerConnection::Init] put on it first. *)
Theorem Init_constants {World : Type}
    (PeerConnection_Init : Value → M World Value)
    (exports exports1 : Value) (w w1 : World) :
  PeerConnection_Init exports w = (Ok exports1, w1) →
  IsObject exports1 = true →
  ∃ exports',
    Init PeerConnection_Init exports w = (Ok exports', w1) ∧
    field exports' "version" = Some (VString "1.0.0") ∧
    field exports' "isNativeImplementation" = Some (VBoolean true).
Proof.
  intros Hinit Hobj.
  destruct (Init_run PeerConnection_Init exports exports1 w w1 Hinit Hobj)
    as (exports' & Hrun & _ & _ & _ & Hversion & Hnative).
  by exists exports'.
Qed.

Lemma Init_constants_witness :
  let register : Value → M nat Value := λ exports n,
    match Set_ exports "version" (VString "0.9.0") with
    | Ok exports' => (Ok exports', S n)
    | Err e => (Err e, n)
    end in
  ∃ exports',
    Init register Object_New 0%nat = (Ok exports', 1%nat) ∧
    field exports' "version" = Some (VString "1.0.0") ∧
    field exports' "isNativeImplementation" = Some (VBoolean true).
Proof.
  intros register.
  apply (Init_constants register Object_New
           (VObject (<["version" := VString "0.9.0"]> ∅)) 0%nat 1%nat);
    reflexivity.
Defined.

(** ** The factories as restrictions of their input *)

Lemma lookup_recognised (keys : list string) (props : gmap string Value)
    (k : string) :
  recognised keys props !! k = if decide (k ∈ keys) then props !! k else None.
Proof.
  unfold recognised. case_decide as Hk.
  - destruct (props !! k) as [v|] eqn:Hv.
    + by apply map_lookup_filter_Some.
    + apply map_lookup_filter_None. by left.
  - apply map_lookup_filter_None. right. intros v _. exact Hk.
Qed.

Lemma field_lookup_properties (v : Value) (k : string) :
  field v k = default ∅ (properties v) !! k.
Proof. unfold field. by destruct (properties v). Qed.

Lemma CreateRTCSessionDescription_eq {World : Type}
    (info : CallbackInfo) (w : World) :
  CreateRTCSessionDescription info w
  = (Ok (VObject (recognised session_fields
                    (default ∅ (properties (Arg info 0))))), w).
Proof.
  destruct (CreateRTCSessionDescription_run info w) as (props & -> & Hprops).
  do 2 f_equal. apply record_eq. intros k.
  by rewrite Hprops, lookup_recognised, field_lookup_properties.
Qed.

Lemma CreateRTCIceCandidate_eq {World : Type}
    (info : CallbackInfo) (w : World) :
  CreateRTCIceCandidate info w
  = (Ok (VObject (recognised ice_fields
                    (default ∅ (properties (Arg info 0))))), w).
Proof.
  destruct (CreateRTCIceCandidate_run info w) as (props & -> & Hprops).
  do 2 f_equal. apply record_eq. intros k.
  by rewrite Hprops, lookup_recognised, field_lookup_properties.
Qed.

Lemma recognised_idemp (keys : list string) (props : gmap string Value) :
  recognised keys (recognised keys props) = recognised keys props.
Proof.
  apply map_eq. intros k. rewrite !lookup_recognised. by case_decide.
Qed.

Lemma recognised_disjoint (keys1 keys2 : list string)
    (props : gmap string Value) :
  (∀ k, k ∈ keys1 → k ∉ keys2) →
  recognised keys2 (recognised keys1 props) = ∅.
Proof.
  intros Hdisj. apply map_eq. intros k.
  rewrite !lookup_recognised, lookup_empty.
  repeat case_decide; try done. by destruct (Hdisj k).
Qed.


(** X2: each descriptor factory is idempotent: called on a record it
    returned, it returns that record again. *)
Theorem descriptors_idempotent {World : Type}
    (info : CallbackInfo) (w : World) :
  (∃ r, CreateRTCSessionDescription info w = (Ok r, w) ∧
        ∀ extra (w' : World),
          CreateRTCSessionDescription {| argv := r :: extra |} w'
          = (Ok r, w')) ∧
  (∃ r, CreateRTCIceCandidate info w = (Ok r, w) ∧
        ∀ extra (w' : World),
          CreateRTCIceCandidate {| argv := r :: extra |} w' = (Ok r, w')).
Proof.
  split; eexists.
  - split; [apply CreateRTCSessionDescription_eq|]. intros extra w'.
    rewrite CreateRTCSessionDescription_eq, Arg_0_cons. simpl.
    by rewrite recognised_idemp.
  - split; [apply CreateRTCIceCandidate_eq|]. intros extra w'.
    rewrite CreateRTCIceCandidate_eq, Arg_0_cons. simpl.
    by rewrite recognised_idemp.
Qed.

(** X4: the two descriptor factories share no field: the ICE-candidate
    factory called on a record of the session-description factory returns
    the empty record, and the other way round. *)
Theorem descriptors_share_no_field {World : Type}
    (info : CallbackInfo) (w : World) :
  (∃ r, CreateRTCSessionDescription info w = (Ok r, w) ∧
        CreateRTCIceCandidate {| argv := [r] |} w = (Ok (VObject ∅), w)) ∧
  (∃ r, CreateRTCIceCandidate info w = (Ok r, w) ∧
        CreateRTCSessionDescription {| argv := [r] |} w
        = (Ok (VObject ∅), w)).
Proof.
  split; eexists.
  - split; [apply CreateRTCSessionDescription_eq|].
    rewrite CreateRTCIceCandidate_eq, Arg_0_cons. simpl.
    rewrite recognised_disjoint; [done|].
    intros k Hk. unfold session_fields in Hk.
    repeat (apply elem_of_cons in Hk as [-> | Hk]);
      [compute_done .. | by apply elem_of_nil in Hk].
  - split; [apply CreateRTCIceCandidate_eq|].
    rewrite CreateRTCSessionDescription_eq, Arg_0_cons. simpl.
    rewrite recognised_disjoint; [done|].
    intros k Hk. unfold ice_fields in Hk.
    repeat (apply elem_of_cons in Hk as [-> | Hk]);
      [compute_done .. | by apply elem_of_nil in Hk].
Qed.

(** ** Module initialisation *)

(** X6: after module initialisation the names [RTCPeerConnection],
    [RTCSessionDescription] and [RTCIceCandidate] hold function values
    bound to the three callbacks of this file, whatever
    [PeerConnection::Init] had put under those names. *)
Theorem Init_exports_factories {World : Type}
    (PeerConnection_Init : Value → M World Value)
    (exports exports1 : Value) (w w1 : World) :
  PeerConnection_Init exports w = (Ok exports1, w1) →
  IsObject exports1 = true →
  ∃ exports',
    Init PeerConnection_Init exports w = (Ok exports', w1) ∧
    field exports' "RTCPeerConnection"
    = Some (Function_New CB_CreateRTCPeerConnection) ∧
    field exports' "RTCSessionDescription"
    = Some (Function_New CB_CreateRTCSessionDescription) ∧
    field exports' "RTCIceCandidate"
    = Some (Function_New CB_CreateRTCIceCandidate).
Proof.
  intros Hinit Hobj.
  destruct (Init_run PeerConnection_Init exports exports1 w w1 Hinit Hobj)
    as (exports' & Hrun & Hpc & Hsd & Hice & _).
  by exists exports'.
Qed.

Lemma Init_exports_factories_witness :
  let register : Value → M nat Value := λ exports n,
    match Set_ exports "RTCPeerConnection" (VFunction (Foreign 7) ∅) with
    | Ok exports' => (Ok exports', S n)
    | Err e => (Err e, n)
    end in
  ∃ exports',
    Init register Object_New 0%nat = (Ok exports', 1%nat) ∧
    field exports' "RTCPeerConnection"
    = Some (Function_New CB_CreateRTCPeerConnection) ∧
    field exports' "RTCSessionDescription"
    = Some (Function_New CB_CreateRTCSessionDescription) ∧
    field exports' "RTCIceCandidate"
    = Some (Function_New CB_CreateRTCIceCandidate).
Proof.
  intros register.
  apply (Init_exports_factories register Object_New
           (VObject (<["RTCPeerConnection" := VFunction (Foreign 7) ∅]> ∅))
           0%nat 1%nat);
    reflexivity.
Defined.

(** X7: module initialisation touches five names only: every other
    property of the export object is as [PeerConnection::Init] left it,
    present or absent, and the export object stays the kind of object it
    was. *)
Theorem Init_keeps_other_exports {World : Type}
    (PeerConnection_Init : Value → M World Value)
    (exports exports1 : Value) (w w1 : World) :
  PeerConnection_Init exports w = (Ok exports1, w1) →
  IsObject exports1 = true →
  ∃ exports',
    Init PeerConnection_Init exports w = (Ok exports', w1) ∧
    Type_ exports' = Type_ exports1 ∧
    (∀ k, k ∉ export_names → field exports' k = field exports1 k) ∧
    (∀ k, k ∈ export_names → is_Some (field exports' k)).
Proof.
  intros Hinit Hobj. unfold Init. rewrite bind_run, Hinit.
  destruct exports1; try discriminate;
    (eexists; split; [reflexivity|]); (split; [reflexivity|]);
    unfold field; simpl; split; intros k Hk; unfold export_names in Hk.
  1, 3: repeat (apply not_elem_of_cons in Hk as [? Hk]); by simplify_map_eq.
  all: repeat (apply elem_of_cons in Hk as [-> | Hk]);
    [by simplify_map_eq .. | by apply elem_of_nil in Hk].
Qed.

Lemma Init_keeps_other_exports_witness :
  let register : Value → M nat Value := λ exports n,
    match Set_ exports "PeerConnection" (VFunction (Foreign 7) ∅) with
    | Ok exports' => (Ok exports', S n)
    | Err e => (Err e, n)
    end in
  ∃ exports',
    Init register Object_New 0%nat = (Ok exports', 1%nat) ∧
    field exports' "PeerConnection" = Some (VFunction (Foreign 7) ∅) ∧
    field exports' "RTCDataChannel" = None ∧
    is_Some (field exports' "version").
Proof.
  intros register.
  destruct (Init_keeps_other_exports register Object_New
              (VObject (<["PeerConnection" := VFunction (Foreign 7) ∅]> ∅))
              0%nat 1%nat eq_refl eq_refl)
    as (exports' & Hrun & _ & Hother & Hset).
  exists exports'. split; [exact Hrun|].
  split; [by rewrite Hother by compute_done|].
  split; [by rewrite Hother by compute_done|].
  apply Hset. compute_done.
Defined.

(** X8: module initialisation fails exactly when [PeerConnection::Init]
    does: a thrown error comes out of [Init] unchanged, with the engine
    state it was thrown in, and [Init] returns exports only after
    [PeerConnection::Init] returned. *)
Theorem Init_fails_with_PeerConnection_Init {World : Type}
    (PeerConnection_Init : Value → M World Value)
    (exports : Value) (w : World) :
  (∀ e w1, PeerConnection_Init exports w = (Err e, w1) →
           Init PeerConnection_Init exports w = (Err e, w1)) ∧
  (∀ exports' w', Init PeerConnection_Init exports w = (Ok exports', w') →
                  ∃ exports1, PeerConnection_Init exports w = (Ok exports1, w')).
Proof.
  split.
  - intros e w1 Hinit. by apply Init_fails.
  - intros exports' w'. unfold Init. rewrite bind_run.
    destruct (PeerConnection_Init exports w) as [[exports1 | e] w1];
      [|done].
    intros Hrun. exists exports1. f_equal.
    destruct exports1; by inversion Hrun.
Qed.

Lemma Init_fails_with_PeerConnection_Init_witness :
  let broken : Value → M nat Value := λ exports n,
    (Err (JsException (VString "no engine")), S n) in
  let plain : Value → M nat Value := λ exports n, (Ok exports, n) in
  Init broken Object_New 0%nat
  = (Err (JsException (VString "no engine")), 1%nat) ∧
  ∃ exports1, plain Object_New 0%nat = (Ok exports1, 0%nat).
Proof.
  intros broken plain.
  destruct (Init_fails_with_PeerConnection_Init broken Object_New 0%nat)
    as [Hfail _].
  destruct (Init_fails_with_PeerConnection_Init plain Object_New 0%nat)
    as [_ Hok].
  split; [apply Hfail; reflexivity|].
  eapply Hok. reflexivity.
Defined.

(** ** The descriptor factories on exotic objects *)

(** Run the next lookup of a factory on an exotic argument, in each of
    its outcomes. *)
Ltac run_lookup :=
  match goal with
  | |- context [match ?f ?k ?w with _ => _ end] =>
      let H := fresh "Hlookup" in
      destruct (f k w) as [[[] | ?] ?] eqn:H; simpl
  | |- context [match ?f ?k ?w with _ => _ end] =>
      let H := fresh "Hlookup" in
      destruct (f k w) as [[? | ?] ?] eqn:H; simpl
  end.

Ltac host_unfold :=
  cbv [Host.CreateRTCSessionDescription Host.CreateRTCIceCandidate
       Host.As_Object Host.Object_New Host.Has Host.Get Host.Set_
       mbind M_bind mret M_ret napi].

Section HostDescriptors.
Context {World : Type}.

Lemma Host_guard_false (info : Host.CallbackInfo World) :
  (0 <? Host.Length World info) && Host.IsObject (Host.Arg info 0) = false →
  Host.IsObject (Host.Arg info 0) = false.
Proof.
  intros [Hlen | Hobj]%andb_false_iff; [|done].
  apply Nat.ltb_ge in Hlen. unfold Host.Arg, Host.Length in *.
  by destruct (Host.argv info); [|simpl in Hlen; lia].
Qed.

Lemma session_returns (info : Host.CallbackInfo World) (w : World) :
  Host.lookups_return session_fields (Host.Arg info 0) →
  ∃ props w',
    Host.CreateRTCSessionDescription info w = (Ok (Host.Plain props), w') ∧
    dom props ⊆ list_to_set session_fields.
Proof.
  intros Hret. host_unfold.
  destruct ((0 <? Host.Length World info) && Host.IsObject (Host.Arg info 0))
    eqn:Hguard; [|exists ∅, w; split; [done | set_solver]].
  apply andb_true_iff in Hguard as [_ Hobj].
  destruct (Host.Arg info 0) as [v | props | callable has get].
  - rewrite !(Has_object v) by done. rewrite !(Get_object v) by done.
    destruct (field v "type"), (field v "sdp"); simpl;
      eexists _, _; (split; [reflexivity|]); unfold session_fields; set_solver.
  - destruct (props !! "type"), (props !! "sdp"); simpl;
      eexists _, _; (split; [reflexivity|]); unfold session_fields; set_solver.
  - simpl in Hret.
    repeat (run_lookup;
      try match goal with
          | H : _ ?k ?w0 = (Err _, _) |- _ =>
              first [ destruct (Hret k w0) as [(? & ? & ?) _];
                        [compute_done | congruence]
                    | destruct (Hret k w0) as [_ (? & ? & ?)];
                        [compute_done | congruence] ]
          end).
    all: eexists _, _; (split; [reflexivity|]); unfold session_fields; set_solver.
Qed.


Lemma ice_returns (info : Host.CallbackInfo World) (w : World) :
  Host.lookups_return ice_fields (Host.Arg info 0) →
  ∃ props w',
    Host.CreateRTCIceCandidate info w = (Ok (Host.Plain props), w') ∧
    dom props ⊆ list_to_set ice_fields.
Proof.
  intros Hret. host_unfold.
  destruct ((0 <? Host.Length World info) && Host.IsObject (Host.Arg info 0))
    eqn:Hguard; [|exists ∅, w; split; [done | set_solver]].
  apply andb_true_iff in Hguard as [_ Hobj].
  destruct (Host.Arg info 0) as [v | props | callable has get].
  - rewrite !(Has_object v) by done. rewrite !(Get_object v) by done.
    destruct (field v "candidate"), (field v "sdpMLineIndex"),
      (field v "sdpMid"); simpl;
      eexists _, _; (split; [reflexivity|]); unfold ice_fields; set_solver.
  - destruct (props !! "candidate"), (props !! "sdpMLineIndex"),
      (props !! "sdpMid"); simpl;
      eexists _, _; (split; [reflexivity|]); unfold ice_fields; set_solver.
  - simpl in Hret.
    repeat (run_lookup;
      try match goal with
          | H : _ ?k ?w0 = (Err _, _) |- _ =>
              first [ destruct (Hret k w0) as [(? & ? & ?) _];
                        [compute_done | congruence]
                    | destruct (Hret k w0) as [_ (? & ? & ?)];
                        [compute_done | congruence] ]
          end).
    all: eexists _, _; (split; [reflexivity|]); unfold ice_fields; set_solver.
Qed.

Lemma session_error (info : Host.CallbackInfo World) (w w' : World)
    (e : Error) :
  Host.CreateRTCSessionDescription info w = (Err e, w') →
  Host.thrown_by_lookup session_fields (Host.Arg info 0) e w'.
Proof.
  host_unfold.
  destruct ((0 <? Host.Length World info) && Host.IsObject (Host.Arg info 0))
    eqn:Hguard; [|done].
  apply andb_true_iff in Hguard as [_ Hobj].
  destruct (Host.Arg info 0) as [v | props | callable has get].
  - rewrite !(Has_object v) by done. rewrite !(Get_object v) by done.
    by destruct (field v "type"), (field v "sdp").
  - by destruct (props !! "type"), (props !! "sdp").
  - simpl. repeat run_lookup; intros [= <- <-];
      match goal with
      | H : has ?k ?w0 = (Err _, _) |- _ =>
          exists k, w0; split; [compute_done | by left]
      | H : get ?k ?w0 = (Err _, _) |- _ =>
          exists k, w0; split; [compute_done | by right]
      end.
Qed.

Lemma ice_error (info : Host.CallbackInfo World) (w w' : World)
    (e : Error) :
  Host.CreateRTCIceCandidate info w = (Err e, w') →
  Host.thrown_by_lookup ice_fields (Host.Arg info 0) e w'.
Proof.
  host_unfold.
  destruct ((0 <? Host.Length World info) && Host.IsObject (Host.Arg info 0))
    eqn:Hguard; [|done].
  apply andb_true_iff in Hguard as [_ Hobj].
  destruct (Host.Arg info 0) as [v | props | callable has get].
  - rewrite !(Has_object v) by done. rewrite !(Get_object v) by done.
    by destruct (field v "candidate"), (field v "sdpMLineIndex"),
      (field v "sdpMid").
  - by destruct (props !! "candidate"), (props !! "sdpMLineIndex"),
      (props !! "sdpMid").
  - simpl. repeat run_lookup; intros [= <- <-];
      match goal with
      | H : has ?k ?w0 = (Err _, _) |- _ =>
          exists k, w0; split; [compute_done | by left]
      | H : get ?k ?w0 = (Err _, _) |- _ =>
          exists k, w0; split; [compute_done | by right]
      end.
Qed.

End HostDescriptors.

(** On ordinary arguments the two embeddings of a factory return the same
    record. *)
Lemma Host_session_agrees {World : Type} (args : list Value) (w : World) :
  ∃ props,
    CreateRTCSessionDescription {| argv := args |} w
    = (Ok (VObject props), w) ∧
    Host.CreateRTCSessionDescription
      {| Host.argv := Host.Ordinary <$> args |} w
    = (Ok (Host.Plain (Host.Ordinary <$> props)), w).
Proof.
  host_unfold. unfold CreateRTCSessionDescription, As_Object, Object_New.
  unfold Arg, Host.Arg, Length, Host.Length.
  destruct args as [|v rest]; simpl;
    [exists ∅; split; [reflexivity | by rewrite fmap_empty]|].
  change (Host.IsObject (Host.Ordinary v)) with (IsObject v).
  destruct (IsObject v) eqn:Hobj;
    [|exists ∅; split; [reflexivity | by rewrite fmap_empty]].
  rewrite !(Has_object v), !(Get_object v) by done.
  destruct (field v "type"), (field v "sdp"); simpl;
    (eexists; split; [reflexivity|]);
    by rewrite ?fmap_insert, fmap_empty.
Qed.

Lemma Host_ice_agrees {World : Type} (args : list Value) (w : World) :
  ∃ props,
    CreateRTCIceCandidate {| argv := args |} w = (Ok (VObject props), w) ∧
    Host.CreateRTCIceCandidate {| Host.argv := Host.Ordinary <$> args |} w
    = (Ok (Host.Plain (Host.Ordinary <$> props)), w).
Proof.
  host_unfold. unfold CreateRTCIceCandidate, As_Object, Object_New.
  unfold Arg, Host.Arg, Length, Host.Length.
  destruct args as [|v rest]; simpl;
    [exists ∅; split; [reflexivity | by rewrite fmap_empty]|].
  change (Host.IsObject (Host.Ordinary v)) with (IsObject v).
  destruct (IsObject v) eqn:Hobj;
    [|exists ∅; split; [reflexivity | by rewrite fmap_empty]].
  rewrite !(Has_object v), !(Get_object v) by done.
  destruct (field v "candidate"), (field v "sdpMLineIndex"),
    (field v "sdpMid"); simpl;
    (eexists; split; [reflexivity|]);
    by rewrite ?fmap_insert, fmap_empty.
Qed.



